(** * The HTTP access layer of the residential-complex frontend

    A shallow embedding of [frontend/src/services/api.js]: the axios
    instance with its request and response interceptors, the
    [retryRequest] helper and the catalogue of resource operations,
    followed by the properties of the request pipeline.

    Conventions of the embedding.
    - JSON payloads are values of [Js.value]; property reads, truthiness
      and the [||] operator follow JavaScript.
    - The browser is an explicit [World]: [localStorage],
      [window.location] and the log of the requests handed to the network
      adapter.  An [async] function is a function from the world to a
      completion (returned value or thrown value) and the next world.
    - The remote server is a script [server : nat -> Config -> Outcome]:
      the outcome of the k-th request the adapter receives.
    - [console.warn] and [console.error] only print and are left out. *)

From stdpp Require Import gmap strings list pretty.
From Stdlib Require Import ZArith Lia.

Local Open Scope string_scope.
Local Open Scope Z_scope.

(** ** JavaScript values *)

Module Js.

(** Parsed JSON.  An object keeps each key once, in insertion order.
    Numbers are integers (status codes, identifiers, counts). *)
#[warnings="-register-all"] Inductive value : Type :=
| VUndefined
| VNull
| VBool (b : bool)
| VNum (n : Z)
| VStr (s : string)
| VArr (xs : list value)
| VObj (fields : list (string * value)).

(** ToBoolean. *)
Definition truthy (v : value) : bool :=
  match v with
  | VUndefined | VNull => false
  | VBool b => b
  | VNum n => negb (n =? 0)
  | VStr s => negb (String.eqb s "")
  | VArr _ | VObj _ => true
  end.

Definition nullish (v : value) : bool :=
  match v with
  | VUndefined | VNull => true
  | _ => false
  end.

Fixpoint assoc (k : string) (fields : list (string * value)) : value :=
  match fields with
  | [] => VUndefined
  | (k', v) :: rest => if String.eqb k k' then v else assoc k rest
  end.

(** [v.k] for a [v] that is neither [null] nor [undefined], and a key
    [k] that names no built-in property (the source reads [data],
    [error] only): own property of an object, [undefined] on a
    primitive or an array. *)
Definition get_prop (v : value) (k : string) : value :=
  match v with
  | VObj fields => assoc k fields
  | _ => VUndefined
  end.

(** [v?.k] *)
Definition opt_prop (v : value) (k : string) : value :=
  if nullish v then VUndefined else get_prop v k.

(** [a || b] *)
Definition or_else (a b : value) : value :=
  if truthy a then a else b.

(** ToString, as a template literal applies it.  A number is printed
    digit by digit: that is what JavaScript prints for an integer up to
    2^53 - 1 in magnitude, the integers a JavaScript number holds
    exactly; beyond them it rounds, and from 10^21 on it uses the
    exponent form.  [prints_exactly] below tells the values for which
    [to_string] is JavaScript's ToString. *)
Fixpoint to_string (v : value) : string :=
  match v with
  | VUndefined => "undefined"
  | VNull => "null"
  | VBool b => if b then "true" else "false"
  | VNum n => pretty n
  | VStr s => s
  | VArr xs =>
      String.concat ","
        (map (fun x => if nullish x then "" else to_string x) xs)
  | VObj _ => "[object Object]"
  end.


End Js.
Import Js.

(** ** Completions *)

Inductive completion (A E : Type) : Type :=
| Returned (a : A)
| Thrown (e : E).
Arguments Returned {A E} a.
Arguments Thrown {A E} e.

(** ** Axios data *)

Inductive Method := GET | POST | PUT | DELETE.

(** Request configuration: what [api.get(url)], [api.post(url, data)],
    ... hand to the interceptors, merged with the instance defaults. *)
Record Config := {
  baseURL : string;
  method : Method;
  url : string;
  data : option value;
  headers : gmap string string;
  timeout : Z;
}.

Record Response := {
  status : Z;
  body : value;   (* [response.data] *)
}.

(** The error the adapter rejects with.  [request] tells whether the
    request object is attached (truthy). *)
Record AxiosError := {
  response : option Response;
  request : bool;
  code : option string;
  message : string;
}.

(** What the response interceptor rejects with:
    [{...error, userMessage, originalError: error}]. *)
Record EnhancedError := {
  e_response : option Response;
  e_request : bool;
  e_code : option string;
  userMessage : value;
  originalError : AxiosError;
}.

Inductive Outcome :=
| Resolved (r : Response)
| Rejected (err : AxiosError).

(** ** The browser *)

Record World := {
  REACT_APP_API_URL : option string;   (* process.env *)
  localStorage : gmap string string;
  pathname : string;                   (* window.location.pathname *)
  href_assigned : list string;         (* assignments to window.location.href, oldest first *)
  sent : list Config;                  (* requests the adapter received, oldest first *)
}.

Definition getItem (k : string) (w : World) : option string :=
  localStorage w !! k.

Definition removeItem (k : string) (w : World) : World :=
  {| REACT_APP_API_URL := REACT_APP_API_URL w;
     localStorage := delete k (localStorage w);
     pathname := pathname w;
     href_assigned := href_assigned w;
     sent := sent w |}.

(** [window.location.href = target]: the navigation is requested; the
    document, and with it [pathname], stays until the browser commits. *)
Definition assign_href (target : string) (w : World) : World :=
  {| REACT_APP_API_URL := REACT_APP_API_URL w;
     localStorage := localStorage w;
     pathname := pathname w;
     href_assigned := href_assigned w ++ [target];
     sent := sent w |}.

Definition record_sent (cfg : Config) (w : World) : World :=
  {| REACT_APP_API_URL := REACT_APP_API_URL w;
     localStorage := localStorage w;
     pathname := pathname w;
     href_assigned := href_assigned w;
     sent := sent w ++ [cfg] |}.

Definition async (A E : Type) : Type := World -> completion A E * World.

(** ** The axios instance *)

Definition API_BASE_URL (w : World) : string :=
  match REACT_APP_API_URL w with
  | Some u => if negb (String.eqb u "") then u
              else "https://reasonable-friendship-production.up.railway.app/api"
  | None => "https://reasonable-friendship-production.up.railway.app/api"
  end.

Definition api_config (m : Method) (path : string) (payload : option value)
    (w : World) : Config :=
  {| baseURL := API_BASE_URL w;
     method := m;
     url := path;
     data := payload;
     headers := {[ "Content-Type" := "application/json" ]};
     timeout := 10000 |}.

Definition set_header (k v : string) (cfg : Config) : Config :=
  {| baseURL := baseURL cfg;
     method := method cfg;
     url := url cfg;
     data := data cfg;
     headers := <[ k := v ]> (headers cfg);
     timeout := timeout cfg |}.

(** *** Request interceptor *)

Definition request_interceptor (config : Config) (w : World) : Config :=
  match getItem "token" w with
  | Some token =>
      if negb (String.eqb token "")
      then set_header "Authorization" ("Bearer " +:+ token) config
      else config
  | None => config
  end.

(** *** Response interceptor, rejection handler *)

Definition msg_unexpected : string := "Ha ocurrido un error inesperado".
Definition msg_400 : string := "Datos inválidos".
Definition msg_401 : string := "Sesión expirada. Por favor, inicia sesión nuevamente".
Definition msg_403 : string := "No tienes permisos para realizar esta acción".
Definition msg_404 : string := "Recurso no encontrado".
Definition msg_422 : string := "Datos de entrada inválidos".
Definition msg_429 : string := "Demasiadas solicitudes. Reintentando automáticamente...".
Definition msg_500 : string := "Error interno del servidor. Inténtalo más tarde".
Definition msg_timeout : string := "La solicitud ha tardado demasiado. Verifica tu conexión".
Definition msg_network : string := "Error de conexión. Verifica tu conexión a internet".

(** The side effects of [case 401]. *)
Definition on_unauthorized (w : World) : World :=
  let w1 := removeItem "token" w in
  let w2 := removeItem "user" w1 in
  if negb (String.eqb (pathname w2) "/login")
  then assign_href "/login" w2
  else w2.

(** [errorMessage] and the world after the [if]/[switch]. *)
Definition classify (error : AxiosError) (w : World) : value * World :=
  match response error with
  | Some r =>
      let st := status r in
      let d := body r in
      if st =? 400 then (or_else (opt_prop d "error") (VStr msg_400), w)
      else if st =? 401 then (VStr msg_401, on_unauthorized w)
      else if st =? 403 then (VStr msg_403, w)
      else if st =? 404 then (VStr msg_404, w)
      else if st =? 422 then (or_else (opt_prop d "error") (VStr msg_422), w)
      else if st =? 429 then (VStr msg_429, w)
      else if st =? 500 then (VStr msg_500, w)
      else (or_else (opt_prop d "error") (VStr ("Error " +:+ pretty st)), w)
  | None =>
      if request error then
        match code error with
        | Some c => if String.eqb c "ECONNABORTED"
                    then (VStr msg_timeout, w)
                    else (VStr msg_network, w)
        | None => (VStr msg_network, w)
        end
      else (VStr msg_unexpected, w)
  end.

Definition response_rejected (error : AxiosError) (w : World)
    : EnhancedError * World :=
  let '(errorMessage, w') := classify error w in
  ({| e_response := response error;
      e_request := request error;
      e_code := code error;
      userMessage := errorMessage;
      originalError := error |}, w').

(** ** Retry helper *)

(** What [retryRequest] does besides running [fn]: each call of [fn] and
    each awaited [setTimeout], in order. *)
Inductive event :=
| Attempt
| Wait (ms : Z).

Fixpoint attempts (tr : list event) : nat :=
  match tr with
  | [] => 0%nat
  | Attempt :: rest => S (attempts rest)
  | Wait _ :: rest => attempts rest
  end.

Fixpoint waits (tr : list event) : list Z :=
  match tr with
  | [] => []
  | Attempt :: rest => waits rest
  | Wait ms :: rest => ms :: waits rest
  end.

(** [error.response?.status === 429] *)
Definition rate_limited (error : EnhancedError) : bool :=
  match e_response error with
  | Some r => status r =? 429
  | None => false
  end.

Section RetryRequest.
Context {A : Type}.
Variable fn : async A EnhancedError.
Variable retries : nat.
Variable delay : Z.

(** The [for] loop at index [i], with [left] = [retries - i] iterations
    to go.  Leaving the loop returns [undefined], here [None]. *)
Fixpoint retry_loop (left i : nat) (w : World)
    : completion (option A) EnhancedError * World * list event :=
  match left with
  | O => (Returned None, w, [])
  | S left' =>
      match fn w with
      | (Returned a, w1) => (Returned (Some a), w1, [Attempt])
      | (Thrown error, w1) =>
          if rate_limited error && (Z.of_nat i <? Z.of_nat retries - 1)
          then
            let backoffDelay := delay * 2 ^ Z.of_nat i in
            let '(r, w2, tr) := retry_loop left' (S i) w1 in
            (r, w2, Attempt :: Wait backoffDelay :: tr)
          else (Thrown error, w1, [Attempt])
      end
  end.

Definition retryRequest (w : World)
    : completion (option A) EnhancedError * World * list event :=
  retry_loop retries 0%nat w.

End RetryRequest.

(** ** What a resource operation reads and rethrows *)

(** What the [catch] clause can receive: the rejection of the call, or
    the TypeError of a property read on [undefined] or [null]. *)
Inductive caught :=
| CaughtRejection (err : EnhancedError)
| CaughtTypeError.

Definition connection_error : value :=
  VObj [("error", VStr "Error de conexión")].

(** [err.response?.data || { error: "Error de conexión" }] *)
Definition rethrown (err : caught) : value :=
  match err with
  | CaughtRejection e =>
      match e_response e with
      | Some r => or_else (body r) connection_error
      | None => connection_error
      end
  | CaughtTypeError => connection_error
  end.

(** [res.data.data] *)
Definition res_data_data (res : option Response) : completion value caught :=
  match res with
  | Some r =>
      if nullish (body r) then Thrown CaughtTypeError
      else Returned (get_prop (body r) "data")
  | None => Thrown CaughtTypeError
  end.

(** [res.data] *)
Definition res_data (res : option Response) : completion value caught :=
  match res with
  | Some r => Returned (body r)
  | None => Thrown CaughtTypeError
  end.

Definition finish (read : option Response -> completion value caught)
    (res : option Response) : completion value value :=
  match read res with
  | Returned v => Returned v
  | Thrown err => Thrown (rethrown err)
  end.

(** ** Requests through the instance *)

Section Pipeline.
Variable server : nat -> Config -> Outcome.

(** The network adapter: the request goes out, the server answers. *)
Definition adapter (config : Config) (w : World) : Outcome * World :=
  (server (length (sent w)) config, record_sent config w).

(** [api.request]: request interceptor, adapter, response interceptor
    ([(response) => response] on success). *)
Definition api_request (m : Method) (path : string) (payload : option value)
    : async Response EnhancedError :=
  fun w =>
    let config := request_interceptor (api_config m path payload w) w in
    let '(out, w1) := adapter config w in
    match out with
    | Resolved r => (Returned r, w1)
    | Rejected error =>
        let '(enhancedError, w2) := response_rejected error w1 in
        (Thrown enhancedError, w2)
    end.

Definition api_get (path : string) := api_request GET path None.
Definition api_delete (path : string) := api_request DELETE path None.
Definition api_post (path : string) (d : value) := api_request POST path (Some d).
Definition api_put (path : string) (d : option value) := api_request PUT path d.

(** *** The pattern of the resource operations *)

(** [try { const res = await retryRequest(() => call); return read(res) }
     catch (err) { throw err.response?.data || {...} }] *)
Definition retried (call : async Response EnhancedError)
    (read : option Response -> completion value caught) (w : World)
    : completion value value * World * list event :=
  let '(r, w1, tr) := retryRequest call 3 1000 w in
  match r with
  | Returned res => (finish read res, w1, tr)
  | Thrown err => (Thrown (rethrown (CaughtRejection err)), w1, tr)
  end.

(** The same without [retryRequest] (login). *)
Definition direct (call : async Response EnhancedError)
    (read : option Response -> completion value caught) (w : World)
    : completion value value * World :=
  match call w with
  | (Returned res, w1) => (finish read (Some res), w1)
  | (Thrown err, w1) => (Thrown (rethrown (CaughtRejection err)), w1)
  end.


(** *** The catalogue *)

Definition login (email password : value) : World -> completion value value * World :=
  direct (api_post "/auth/login" (VObj [("email", email); ("password", password)]))
    res_data_data.

Definition getApartments :=
  retried (api_get "/apartments")
    res_data_data.

Definition createApartment (apartmentData : value) :=
  retried (api_post "/apartments" apartmentData)
    res_data_data.

Definition updateApartment (id apartmentData : value) :=
  retried (api_put ("/apartments/" +:+ to_string id) (Some apartmentData))
    res_data_data.

Definition deleteApartment (id : value) :=
  retried (api_delete ("/apartments/" +:+ to_string id))
    res_data.

Definition createPayment (paymentData : value) :=
  retried (api_post "/payments" paymentData)
    res_data_data.

Definition getPayments (month : value) :=
  retried (api_get ("/payments" +:+ (if truthy month then "?month=" +:+ to_string month else "")))
    res_data_data.

Definition registerPaymentAsPaid (paymentId : value) :=
  retried (api_put ("/payments/" +:+ to_string paymentId +:+ "/pay") (Some (VObj [])))
    res_data_data.

Definition updatePayment (id paymentData : value) :=
  retried (api_put ("/payments/" +:+ to_string id) (Some paymentData))
    res_data_data.

Definition deletePayment (id : value) :=
  retried (api_delete ("/payments/" +:+ to_string id))
    res_data.

Definition getUsers :=
  retried (api_get "/users")
    res_data_data.

Definition getEvents :=
  retried (api_get "/maintenance")
    res_data_data.

Definition createEvent (payload : value) :=
  retried (api_post "/maintenance" payload)
    res_data_data.

Definition deleteEvent (id : value) :=
  retried (api_delete ("/maintenance/" +:+ to_string id))
    res_data.

Definition updateEvent (id payload : value) :=
  retried (api_put ("/maintenance/" +:+ to_string id) (Some payload))
    res_data_data.

Definition updateMaintenanceStatus (id status : value) :=
  retried (api_put ("/maintenance/" +:+ to_string id +:+ "/status") (Some (VObj [("status", status)])))
    res_data_data.

Definition createUser (userData : value) :=
  retried (api_post "/users" userData)
    res_data_data.

Definition updateUser (id userData : value) :=
  retried (api_put ("/users/" +:+ to_string id) (Some userData))
    res_data_data.

Definition deleteUser (id : value) :=
  retried (api_delete ("/users/" +:+ to_string id))
    res_data.

Definition getNotifications :=
  retried (api_get "/notifications")
    res_data_data.

Definition createNotification (notificationData : value) :=
  retried (api_post "/notifications" notificationData)
    res_data_data.

Definition updateNotification (id notificationData : value) :=
  retried (api_put ("/notifications/" +:+ to_string id) (Some notificationData))
    res_data_data.

Definition markNotificationAsRead (id : value) :=
  retried (api_put ("/notifications/" +:+ to_string id +:+ "/read") None)
    res_data_data.

Definition deleteNotification (id : value) :=
  retried (api_delete ("/notifications/" +:+ to_string id))
    res_data.

Definition getDamageReports :=
  retried (api_get "/damage-reports/my-reports")
    res_data_data.

Definition createDamageReport (reportData : value) :=
  retried (api_post "/damage-reports" reportData)
    res_data_data.

Definition updateDamageReport (id reportData : value) :=
  retried (api_put ("/damage-reports/" +:+ to_string id) (Some reportData))
    res_data_data.

Definition deleteDamageReport (id : value) :=
  retried (api_delete ("/damage-reports/" +:+ to_string id))
    res_data.

Definition updateDamageReportStatus (id status : value) :=
  retried (api_put ("/damage-reports/" +:+ to_string id +:+ "/status") (Some (VObj [("status", status)])))
    res_data_data.

Definition getAirbnbGuests :=
  retried (api_get "/airbnb/guests")
    res_data_data.

Definition getActiveAirbnbGuests :=
  retried (api_get "/airbnb/guests/active")
    res_data_data.

Definition createAirbnbGuest (guestData : value) :=
  retried (api_post "/airbnb/guests" guestData)
    res_data_data.

Definition updateAirbnbGuest (id guestData : value) :=
  retried (api_put ("/airbnb/guests/" +:+ to_string id) (Some guestData))
    res_data_data.

Definition checkinAirbnbGuest (id : value) :=
  retried (api_put ("/airbnb/guests/" +:+ to_string id +:+ "/checkin") None)
    res_data_data.

Definition checkoutAirbnbGuest (id : value) :=
  retried (api_put ("/airbnb/guests/" +:+ to_string id +:+ "/checkout") None)
    res_data_data.

Definition deleteAirbnbGuest (id : value) :=
  retried (api_delete ("/airbnb/guests/" +:+ to_string id))
    res_data.

End Pipeline.

(** The exported operations, by name and arguments. *)
Inductive operation :=
| Login (email password : value)
| GetApartments
| CreateApartment (apartmentData : value)
| UpdateApartment (id apartmentData : value)
| DeleteApartment (id : value)
| CreatePayment (paymentData : value)
| GetPayments (month : value)
| RegisterPaymentAsPaid (paymentId : value)
| UpdatePayment (id paymentData : value)
| DeletePayment (id : value)
| GetUsers
| GetEvents
| CreateEvent (payload : value)
| DeleteEvent (id : value)
| UpdateEvent (id payload : value)
| UpdateMaintenanceStatus (id status : value)
| CreateUser (userData : value)
| UpdateUser (id userData : value)
| DeleteUser (id : value)
| GetNotifications
| CreateNotification (notificationData : value)
| UpdateNotification (id notificationData : value)
| MarkNotificationAsRead (id : value)
| DeleteNotification (id : value)
| GetDamageReports
| CreateDamageReport (reportData : value)
| UpdateDamageReport (id reportData : value)
| DeleteDamageReport (id : value)
| UpdateDamageReportStatus (id status : value)
| GetAirbnbGuests
| GetActiveAirbnbGuests
| CreateAirbnbGuest (guestData : value)
| UpdateAirbnbGuest (id guestData : value)
| CheckinAirbnbGuest (id : value)
| CheckoutAirbnbGuest (id : value)
| DeleteAirbnbGuest (id : value).

Definition is_login (op : operation) : bool :=
  match op with
  | Login _ _ => true
  | _ => false
  end.

Definition is_delete (op : operation) : bool :=
  match op with
  | DeleteApartment _
  | DeletePayment _
  | DeleteEvent _
  | DeleteUser _
  | DeleteNotification _
  | DeleteDamageReport _
  | DeleteAirbnbGuest _ => true
  | _ => false
  end.

(** Calling an exported operation.  [login] makes no use of
    [retryRequest], so it contributes no event. *)
Definition perform (server : nat -> Config -> Outcome) (op : operation) (w : World)
    : completion value value * World * list event :=
  match op with
  | Login email password => (login server email password w, [])
  | GetApartments => getApartments server w
  | CreateApartment apartmentData => createApartment server apartmentData w
  | UpdateApartment id apartmentData => updateApartment server id apartmentData w
  | DeleteApartment id => deleteApartment server id w
  | CreatePayment paymentData => createPayment server paymentData w
  | GetPayments month => getPayments server month w
  | RegisterPaymentAsPaid paymentId => registerPaymentAsPaid server paymentId w
  | UpdatePayment id paymentData => updatePayment server id paymentData w
  | DeletePayment id => deletePayment server id w
  | GetUsers => getUsers server w
  | GetEvents => getEvents server w
  | CreateEvent payload => createEvent server payload w
  | DeleteEvent id => deleteEvent server id w
  | UpdateEvent id payload => updateEvent server id payload w
  | UpdateMaintenanceStatus id status => updateMaintenanceStatus server id status w
  | CreateUser userData => createUser server userData w
  | UpdateUser id userData => updateUser server id userData w
  | DeleteUser id => deleteUser server id w
  | GetNotifications => getNotifications server w
  | CreateNotification notificationData => createNotification server notificationData w
  | UpdateNotification id notificationData => updateNotification server id notificationData w
  | MarkNotificationAsRead id => markNotificationAsRead server id w
  | DeleteNotification id => deleteNotification server id w
  | GetDamageReports => getDamageReports server w
  | CreateDamageReport reportData => createDamageReport server reportData w
  | UpdateDamageReport id reportData => updateDamageReport server id reportData w
  | DeleteDamageReport id => deleteDamageReport server id w
  | UpdateDamageReportStatus id status => updateDamageReportStatus server id status w
  | GetAirbnbGuests => getAirbnbGuests server w
  | GetActiveAirbnbGuests => getActiveAirbnbGuests server w
  | CreateAirbnbGuest guestData => createAirbnbGuest server guestData w
  | UpdateAirbnbGuest id guestData => updateAirbnbGuest server id guestData w
  | CheckinAirbnbGuest id => checkinAirbnbGuest server id w
  | CheckoutAirbnbGuest id => checkoutAirbnbGuest server id w
  | DeleteAirbnbGuest id => deleteAirbnbGuest server id w
  end.

(** ** Scenarios *)

(** A signed-in page away from the login form, and the login form. *)
Definition dashboard : World :=
  {| REACT_APP_API_URL := None;
     localStorage := {[ "token" := "abc123"; "user" := "{}" ]};
     pathname := "/dashboard";
     href_assigned := [];
     sent := [] |}.

Definition login_page : World :=
  {| REACT_APP_API_URL := None;
     localStorage := {[ "token" := "abc123"; "user" := "{}" ]};
     pathname := "/login";
     href_assigned := [];
     sent := [] |}.

(** A page whose store holds the empty string under [token]. *)
Definition blank_token_page : World :=
  {| REACT_APP_API_URL := None;
     localStorage := {[ "token" := "" ]};
     pathname := "/dashboard";
     href_assigned := [];
     sent := [] |}.

(** The errors the adapter rejects with. *)
Definition http_error (st : Z) (payload : value) : AxiosError :=
  {| response := Some {| status := st; body := payload |};
     request := true;
     code := Some (if st <? 500 then "ERR_BAD_REQUEST" else "ERR_BAD_RESPONSE");
     message := "Request failed with status code " +:+ pretty st |}.

Definition timeout_error : AxiosError :=
  {| response := None;
     request := true;
     code := Some "ECONNABORTED";
     message := "timeout of 10000ms exceeded" |}.

Definition network_error : AxiosError :=
  {| response := None;
     request := true;
     code := Some "ERR_NETWORK";
     message := "Network Error" |}.

Definition setup_error : AxiosError :=
  {| response := None;
     request := false;
     code := None;
     message := "Invalid URL" |}.

(** Consecutive failures through the rejection handler. *)
Definition reject_all (errors : list AxiosError) (w : World) : World :=
  fold_left (fun w0 error => snd (response_rejected error w0)) errors w.

Definition unauthorized (error : AxiosError) : Prop :=
  exists r, response error = Some r /\ status r = 401.

(** The backoff delays of [n] consecutive retries from index [i] on. *)
Definition backoffs (delay : Z) (i n : nat) : list Z :=
  map (fun j => delay * 2 ^ Z.of_nat j) (seq i n).

(** The three parts of what an operation yields. *)
Definition outcome {A E : Type} (x : completion A E * World * list event)
    : completion A E := fst (fst x).
Definition world_after {A E : Type} (x : completion A E * World * list event)
    : World := snd (fst x).
Definition trace {A E : Type} (x : completion A E * World * list event)
    : list event := snd x.

(** What the caller reads off a response: [res.data] for the deletes,
    [res.data.data] for the rest. *)
Definition reader (op : operation) : option Response -> completion value caught :=
  if is_delete op then res_data else res_data_data.

(** What an operation rethrows for a raw failure. *)
Definition surfaced (error : AxiosError) : value :=
  match response error with
  | Some res => or_else (body res) connection_error
  | None => connection_error
  end.


(** Servers. *)
Definition answers (payload : value) : nat -> Config -> Outcome :=
  fun _ _ => Resolved {| status := 200; body := payload |}.

Definition always_fails (st : Z) (payload : value) : nat -> Config -> Outcome :=
  fun _ _ => Rejected (http_error st payload).



Definition busy_twice : nat -> Config -> Outcome :=
  fun k _ =>
    match k with
    | 0%nat | 1%nat => Rejected (http_error 429 VUndefined)
    | _ => Resolved {| status := 200;
                       body := VObj [("data", VArr [VObj [("id", VNum 1)]])] |}
    end.

(** ** Runs of one operation *)

(** The world once [extra] more requests have gone out. *)
Definition sent_more (extra : list Config) (w : World) : World :=
  {| REACT_APP_API_URL := REACT_APP_API_URL w;
     localStorage := localStorage w;
     pathname := pathname w;
     href_assigned := href_assigned w;
     sent := sent w ++ extra |}.

(** The configuration that reaches the adapter. *)
Definition outgoing (m : Method) (path : string) (d : option value) (w : World)
    : Config :=
  request_interceptor (api_config m path d w) w.

(** An answer with status 429. *)
Definition rate_limit_answer (o : Outcome) : Prop :=
  exists raw res, o = Rejected raw /\ response raw = Some res /\ status res = 429.

(** [n] calls from index [i] on, a wait between two calls. *)
Fixpoint schedule (delay : Z) (i n : nat) : list event :=
  match n with
  | O => []
  | S O => [Attempt]
  | S (S _ as n') => Attempt :: Wait (delay * 2 ^ Z.of_nat i) :: schedule delay (S i) n'
  end.

(** The time spent waiting. *)
Definition total_wait (tr : list event) : Z :=
  fold_right Z.add 0 (waits tr).

(** * Properties *)

(** ** Values *)

Lemma or_else_truthy (a b : value) :
  truthy b = true -> truthy (or_else a b) = true.
Proof. intros Hb. unfold or_else. destruct (truthy a) eqn:Ha; [exact Ha | exact Hb]. Qed.

(** ** Response interceptor *)

Ltac by_status st :=
  repeat match goal with
         | |- context [st =? ?k] =>
             let E := fresh "E" in
             destruct (Z.eqb_spec st k) as [E | E]; [ | ]
         end.

Lemma classify_truthy (error : AxiosError) (w : World) :
  truthy (fst (classify error w)) = true.
Proof.
  unfold classify.
  destruct (response error) as [r | ].
  - by_status (status r); cbn [fst];
      try reflexivity; apply or_else_truthy; reflexivity.
  - destruct (request error); [ | reflexivity].
    destruct (code error) as [c | ]; [ | reflexivity].
    destruct (String.eqb c "ECONNABORTED"); reflexivity.
Qed.


Lemma response_rejected_fields (error : AxiosError) (w : World) :
  let enhanced := fst (response_rejected error w) in
  e_response enhanced = response error
  /\ e_request enhanced = request error
  /\ e_code enhanced = code error
  /\ originalError enhanced = error
  /\ userMessage enhanced = fst (classify error w).
Proof.
  unfold response_rejected. destruct (classify error w) as [m w'].
  cbn. repeat split.
Qed.

Lemma response_rejected_world (error : AxiosError) (w : World) :
  snd (response_rejected error w) = snd (classify error w).
Proof.
  unfold response_rejected. destruct (classify error w) as [m w']. reflexivity.
Qed.

(** C3.  The rejection handler of the response interceptor is total: for
    every error it yields an enhanced error that keeps the original and
    carries a truthy [userMessage], chosen by the table.  400 and 422:
    the [error] field of the response body when truthy, else their own
    fallback (the two differ).  401, 403, 404, 429, 500: a fixed message.
    Any other status: the [error] field when truthy, else "Error "
    followed by the status in decimal.  No response but a request: the
    timeout message when the code is ECONNABORTED, the connection message
    otherwise.  Neither response nor request: the generic message. *)
Theorem normalizer_table (error : AxiosError) (w : World) :
  let enhanced := fst (response_rejected error w) in
  let m := userMessage enhanced in
  originalError enhanced = error
  /\ truthy m = true
  /\ msg_400 <> msg_422
  /\ (forall r, response error = Some r ->
        let field := opt_prop (body r) "error" in
        (status r = 400 -> m = or_else field (VStr msg_400))
        /\ (status r = 401 -> m = VStr msg_401)
        /\ (status r = 403 -> m = VStr msg_403)
        /\ (status r = 404 -> m = VStr msg_404)
        /\ (status r = 422 -> m = or_else field (VStr msg_422))
        /\ (status r = 429 -> m = VStr msg_429)
        /\ (status r = 500 -> m = VStr msg_500)
        /\ (~ In (status r) [400; 401; 403; 404; 422; 429; 500] ->
            m = or_else field (VStr ("Error " +:+ pretty (status r)))))
  /\ (response error = None -> request error = true ->
      code error = Some "ECONNABORTED" -> m = VStr msg_timeout)
  /\ (response error = None -> request error = true ->
      code error <> Some "ECONNABORTED" -> m = VStr msg_network)
  /\ (response error = None -> request error = false -> m = VStr msg_unexpected).
Proof.
  cbv zeta.
  destruct (response_rejected_fields error w) as (_ & _ & _ & Ho & Hm).
  rewrite Hm. split; [exact Ho | ].
  split; [apply classify_truthy | ].
  split; [discriminate | ].
  unfold classify. split; [ | repeat split].
  - intros r Hr. rewrite Hr.
    repeat split; intros Hst;
      try (rewrite Hst; reflexivity).
    by_status (status r); cbn [fst];
      try match goal with
          | Heq : status r = _ |- _ =>
              exfalso; apply Hst; rewrite Heq; cbn; tauto
          end.
    reflexivity.
  - intros Hr Hq Hc. rewrite Hr, Hq, Hc. reflexivity.
  - intros Hr Hq Hc. rewrite Hr, Hq.
    destruct (code error) as [c | ]; [ | reflexivity].
    destruct (String.eqb_spec c "ECONNABORTED") as [-> | _];
      [congruence | reflexivity].
  - intros Hr Hq. rewrite Hr, Hq. reflexivity.
Qed.

(** The table at work: a status outside the table without an [error]
    field, a 400 with one, a timeout, an unreachable network and a
    failure before any request was made. *)
Lemma normalizer_table_witness :
  userMessage (fst (response_rejected (http_error 418 VNull) dashboard))
    = VStr "Error 418"
  /\ userMessage
       (fst (response_rejected
               (http_error 400 (VObj [("error", VStr "Correo duplicado")]))
               dashboard))
     = VStr "Correo duplicado"
  /\ userMessage (fst (response_rejected timeout_error dashboard))
     = VStr msg_timeout
  /\ userMessage (fst (response_rejected network_error dashboard))
     = VStr msg_network
  /\ userMessage (fst (response_rejected setup_error dashboard))
     = VStr msg_unexpected.
Proof.
  split; [ | split; [ | split; [ | split]]].
  - destruct (normalizer_table (http_error 418 VNull) dashboard)
      as (_ & _ & _ & Hhttp & _).
    destruct (Hhttp _ eq_refl) as (_ & _ & _ & _ & _ & _ & _ & Hother).
    apply Hother. cbn. lia.
  - destruct (normalizer_table
                (http_error 400 (VObj [("error", VStr "Correo duplicado")]))
                dashboard) as (_ & _ & _ & Hhttp & _).
    destruct (Hhttp _ eq_refl) as (H400 & _).
    apply H400. reflexivity.
  - destruct (normalizer_table timeout_error dashboard)
      as (_ & _ & _ & _ & Htimeout & _).
    apply Htimeout; reflexivity.
  - destruct (normalizer_table network_error dashboard)
      as (_ & _ & _ & _ & _ & Hnetwork & _).
    apply Hnetwork; [reflexivity | reflexivity | discriminate].
  - destruct (normalizer_table setup_error dashboard)
      as (_ & _ & _ & _ & _ & _ & Hsetup).
    apply Hsetup; reflexivity.
Defined.

(** ** The 401 path *)

Lemma on_unauthorized_store (w : World) :
  getItem "token" (on_unauthorized w) = None
  /\ getItem "user" (on_unauthorized w) = None.
Proof.
  unfold on_unauthorized, getItem. cbn.
  destruct (negb _); cbn.
  all: split; [rewrite lookup_delete_ne by discriminate | ];
    apply lookup_delete_eq.
Qed.

Lemma on_unauthorized_location (w : World) :
  pathname (on_unauthorized w) = pathname w
  /\ href_assigned (on_unauthorized w)
     = (href_assigned w ++ (if String.eqb (pathname w) "/login" then [] else ["/login"]))%list.
Proof.
  unfold on_unauthorized. cbn.
  destruct (String.eqb (pathname w) "/login"); cbn.
  - split; [reflexivity | symmetry; apply app_nil_r].
  - split; reflexivity.
Qed.

Lemma classify_401 (error : AxiosError) (w : World) (r : Response) :
  response error = Some r -> status r = 401 ->
  snd (response_rejected error w) = on_unauthorized w.
Proof.
  intros Hr Hst. rewrite response_rejected_world.
  unfold classify. rewrite Hr, Hst. reflexivity.
Qed.

(** C4.  A 401 removes [token] and [user] from the store; it assigns
    [window.location.href] the login path exactly when the pathname is
    not the login path.  Any run of 401s met on the login path leaves the
    store cleared and assigns no location. *)
Theorem unauthorized_clears_session :
  (forall (error : AxiosError) (w : World),
      unauthorized error ->
      let w' := snd (response_rejected error w) in
      getItem "token" w' = None
      /\ getItem "user" w' = None
      /\ (pathname w <> "/login" -> href_assigned w' = (href_assigned w ++ ["/login"])%list)
      /\ (pathname w = "/login" -> href_assigned w' = href_assigned w))
  /\ (forall (errors : list AxiosError) (w : World),
        Forall unauthorized errors -> errors <> [] ->
        pathname w = "/login" ->
        let w' := reject_all errors w in
        getItem "token" w' = None
        /\ getItem "user" w' = None
        /\ href_assigned w' = href_assigned w).
Proof.
  assert (Hstep : forall error w, unauthorized error ->
            snd (response_rejected error w) = on_unauthorized w).
  { intros error w (r & Hr & Hst). eapply classify_401; eassumption. }
  split.
  - intros error w Hu. cbv zeta. rewrite (Hstep _ _ Hu).
    destruct (on_unauthorized_store w) as [Ht Hus].
    destruct (on_unauthorized_location w) as [_ Hh].
    repeat split; try assumption.
    + intros Hp. rewrite Hh.
      destruct (String.eqb_spec (pathname w) "/login"); [contradiction | reflexivity].
    + intros Hp. rewrite Hh, Hp. cbn. apply app_nil_r.
  - intros errors w Hall Hne Hp. cbv zeta.
    assert (Hinv : forall errs w0, Forall unauthorized errs ->
              pathname w0 = "/login" ->
              pathname (reject_all errs w0) = "/login"
              /\ href_assigned (reject_all errs w0) = href_assigned w0
              /\ (errs <> [] ->
                  getItem "token" (reject_all errs w0) = None
                  /\ getItem "user" (reject_all errs w0) = None)).
    { intros errs. induction errs as [ | e errs IH] using rev_ind; intros w0 Hf Hp0.
      - cbn. split; [assumption | split; [reflexivity | ]].
        intros Hc. contradiction.
      - apply Forall_app in Hf as [Hf He].
        apply Forall_cons in He as [He _].
        unfold reject_all in *. rewrite fold_left_app. cbn [fold_left].
        destruct (IH w0 Hf Hp0) as (Hp1 & Hh1 & _).
        rewrite (Hstep _ _ He).
        destruct (on_unauthorized_location (fold_left
                    (fun w1 error => snd (response_rejected error w1)) errs w0))
          as [Hp2 Hh2].
        rewrite Hp2, Hh2, Hp1, Hh1. cbn.
        split; [reflexivity | split; [apply app_nil_r | ]].
        intros _. apply on_unauthorized_store. }
    destruct (Hinv errors w Hall Hp) as (_ & Hh & Hs).
    destruct (Hs Hne) as [Ht Hu]. repeat split; assumption.
Qed.

(** A 401 on the dashboard asks for the login page once; three 401s on
    the login page ask for nothing. *)
Lemma unauthorized_clears_session_witness :
  (let w' := snd (response_rejected (http_error 401 VNull) dashboard) in
   getItem "token" w' = None /\ href_assigned w' = ["/login"])
  /\ (let w' := reject_all [http_error 401 VNull; http_error 401 VNull;
                            http_error 401 VNull] login_page in
      getItem "user" w' = None /\ href_assigned w' = []).
Proof.
  destruct unauthorized_clears_session as [Hone Hmany].
  assert (Hu : unauthorized (http_error 401 VNull)).
  { exists {| status := 401; body := VNull |}. split; reflexivity. }
  split.
  - destruct (Hone (http_error 401 VNull) dashboard Hu) as (Ht & _ & Hnav & _).
    split; [exact Ht | ].
    apply Hnav. discriminate.
  - assert (Hall : Forall unauthorized
                     [http_error 401 VNull; http_error 401 VNull; http_error 401 VNull]).
    { repeat constructor; exact Hu. }
    destruct (Hmany _ login_page Hall ltac:(discriminate) eq_refl) as (_ & Hus & Hh).
    split; [exact Hus | exact Hh].
Defined.

(** ** Request interceptor *)

Lemma request_interceptor_cases (config : Config) (w : World) :
  (exists token, getItem "token" w = Some token /\ token <> ""
     /\ request_interceptor config w
        = set_header "Authorization" ("Bearer " +:+ token) config)
  \/ ((getItem "token" w = None \/ getItem "token" w = Some "")
      /\ request_interceptor config w = config).
Proof.
  unfold request_interceptor.
  destruct (getItem "token" w) as [token | ]; [ | right; split; [left | ]; reflexivity].
  destruct (String.eqb_spec token "") as [-> | Hne]; cbn.
  - right. split; [right | ]; reflexivity.
  - left. exists token. repeat split; assumption.
Qed.

(** C9, as amended.  The request interceptor sets
    [Authorization: Bearer <token>] exactly when the store holds a
    non-empty string under [token]; with no entry, or with the empty
    string, the configuration comes back unchanged. *)
Theorem bearer_header (config : Config) (w : World) :
  (forall token, getItem "token" w = Some token -> token <> "" ->
     request_interceptor config w
       = set_header "Authorization" ("Bearer " +:+ token) config
     /\ headers (request_interceptor config w) !! "Authorization"
        = Some ("Bearer " +:+ token))
  /\ (getItem "token" w = None \/ getItem "token" w = Some "" ->
      request_interceptor config w = config)
  /\ (headers config !! "Authorization" = None ->
      (is_Some (headers (request_interceptor config w) !! "Authorization")
       <-> exists token, getItem "token" w = Some token /\ token <> "")).
Proof.
  destruct (request_interceptor_cases config w)
    as [(token & Ht & Hne & Heq) | (Hnone & Heq)].
  - split; [ | split].
    + intros token' Ht' _. assert (token' = token) as -> by congruence.
      split; [exact Heq | ]. rewrite Heq. cbn. apply lookup_insert_eq.
    + intros [Hc | Hc]; congruence.
    + intros _. split.
      * intros _. exists token. split; assumption.
      * intros _. rewrite Heq. cbn. rewrite lookup_insert_eq. eexists; reflexivity.
  - split; [ | split].
    + intros token Ht Hne. destruct Hnone; congruence.
    + intros _. exact Heq.
    + intros Hnoauth. rewrite Heq, Hnoauth. split.
      * intros [x Hx]. discriminate.
      * intros (token & Ht & Hne). destruct Hnone; congruence.
Qed.

Lemma bearer_header_witness :
  headers (request_interceptor (api_config GET "/apartments" None dashboard) dashboard)
    !! "Authorization" = Some "Bearer abc123"
  /\ request_interceptor (api_config GET "/apartments" None blank_token_page)
       blank_token_page
     = api_config GET "/apartments" None blank_token_page.
Proof.
  split.
  - apply (bearer_header (api_config GET "/apartments" None dashboard) dashboard).
    + reflexivity.
    + discriminate.
  - apply (bearer_header (api_config GET "/apartments" None blank_token_page)
             blank_token_page).
    right. reflexivity.
Defined.

(** C9, as stated, fails: the store holds a token entry, the empty
    string, and the request leaves without an [Authorization] header. *)
Lemma bearer_header_counterexample :
  is_Some (getItem "token" blank_token_page)
  /\ headers (request_interceptor
                (api_config GET "/apartments" None blank_token_page)
                blank_token_page) !! "Authorization" = None.
Proof.
  split.
  - exists "". reflexivity.
  - reflexivity.
Qed.

(** ** Retry helper *)

Section RetryFacts.
Context {A : Type}.
Variable fn : async A EnhancedError.
Variable retries : nat.
Variable delay : Z.

Lemma retry_loop_unfold (left i : nat) (w : World) :
  retry_loop fn retries delay (S left) i w
  = match fn w with
    | (Returned a, w1) => (Returned (Some a), w1, [Attempt])
    | (Thrown error, w1) =>
        if rate_limited error && (Z.of_nat i <? Z.of_nat retries - 1)
        then
          let '(r, w2, tr) := retry_loop fn retries delay left (S i) w1 in
          (r, w2, Attempt :: Wait (delay * 2 ^ Z.of_nat i) :: tr)
        else (Thrown error, w1, [Attempt])
    end.
Proof. reflexivity. Qed.

Lemma retry_loop_success (left i : nat) (w w1 : World) (a : A) :
  fn w = (Returned a, w1) ->
  retry_loop fn retries delay (S left) i w = (Returned (Some a), w1, [Attempt]).
Proof. intros Hfn. cbn [retry_loop]. rewrite Hfn. reflexivity. Qed.


Lemma retry_loop_last (i : nat) (w w1 : World) (error : EnhancedError) :
  fn w = (Thrown error, w1) -> (retries <= S i)%nat ->
  retry_loop fn retries delay 1 i w = (Thrown error, w1, [Attempt]).
Proof.
  intros Hfn Hi. cbn [retry_loop]. rewrite Hfn.
  replace (Z.of_nat i <? Z.of_nat retries - 1) with false
    by (symmetry; apply Z.ltb_ge; lia).
  rewrite andb_false_r. reflexivity.
Qed.

Lemma retry_loop_backoff (left i : nat) (w w1 : World) (error : EnhancedError) :
  fn w = (Thrown error, w1) -> rate_limited error = true ->
  (S i < retries)%nat ->
  retry_loop fn retries delay (S left) i w
  = let '(r, w2, tr) := retry_loop fn retries delay left (S i) w1 in
    (r, w2, Attempt :: Wait (delay * 2 ^ Z.of_nat i) :: tr).
Proof.
  intros Hfn Hrl Hi. cbn [retry_loop]. rewrite Hfn, Hrl.
  replace (Z.of_nat i <? Z.of_nat retries - 1) with true
    by (symmetry; apply Z.ltb_lt; lia).
  reflexivity.
Qed.

(** Never more calls than iterations. *)
Lemma retry_loop_attempts (left i : nat) (w : World) :
  (attempts (snd (retry_loop fn retries delay left i w)) <= left)%nat.
Proof.
  revert i w. induction left as [ | left IH]; intros i w; cbn [retry_loop].
  - cbn. lia.
  - destruct (fn w) as [[a | error] w1]; [cbn; lia | ].
    destruct (rate_limited error && (Z.of_nat i <? Z.of_nat retries - 1));
      [ | cbn; lia].
    specialize (IH (S i) w1).
    destruct (retry_loop fn retries delay left (S i) w1) as [[r w2] tr].
    cbn in *. lia.
Qed.

Hypothesis always_limited :
  forall w, exists error w1, fn w = (Thrown error, w1) /\ rate_limited error = true.

Lemma retry_loop_exhausted (left i : nat) (w : World) :
  (S left + i = retries)%nat ->
  exists error w_last w' tr,
    retry_loop fn retries delay (S left) i w = (Thrown error, w', tr)
    /\ fn w_last = (Thrown error, w')
    /\ attempts tr = S left
    /\ waits tr = backoffs delay i left.
Proof.
  revert i w. induction left as [ | left IH]; intros i w Hsum.
  - destruct (always_limited w) as (error & w1 & Hfn & _).
    exists error, w, w1, [Attempt].
    rewrite (retry_loop_last _ _ _ _ Hfn) by lia.
    repeat split; assumption.
  - destruct (always_limited w) as (error & w1 & Hfn & Hrl).
    rewrite (retry_loop_backoff _ _ _ _ _ Hfn Hrl) by lia.
    destruct (IH (S i) w1) as (e' & w_last & w' & tr & Hloop & Hlast & Hat & Hwt);
      [lia | ].
    rewrite Hloop.
    exists e', w_last, w', (Attempt :: Wait (delay * 2 ^ Z.of_nat i) :: tr).
    repeat split; try assumption.
    + cbn. rewrite Hat. reflexivity.
    + cbn [waits]. rewrite Hwt. reflexivity.
Qed.

End RetryFacts.

Lemma rate_limited_enhanced (raw : AxiosError) (w : World) :
  rate_limited (fst (response_rejected raw w))
  = match response raw with
    | Some r => status r =? 429
    | None => false
    end.
Proof.
  unfold rate_limited.
  destruct (response_rejected_fields raw w) as (-> & _). reflexivity.
Qed.

(** C2.  At index [i] of the loop, a failure with status 429 while
    [i + 1 < retries] is followed by a wait of [delay * 2^i] and the
    iteration at index [i + 1]; with the defaults the waits are 1000 then
    2000.  [getApartments] against a server that answers 429, 429, then
    200 with [{data: [{id: 1}]}] returns [[{id: 1}]] after three calls
    separated by waits of 1000 and 2000, three requests having been sent. *)
Theorem rate_limit_backoff :
  (forall (A : Type) (fn : async A EnhancedError) (retries : nat) (delay : Z)
          (i : nat) (w w1 : World) (error : EnhancedError),
      (S i < retries)%nat ->
      fn w = (Thrown error, w1) -> rate_limited error = true ->
      retry_loop fn retries delay (retries - i) i w
      = let '(r, w2, tr) := retry_loop fn retries delay (retries - S i) (S i) w1 in
        (r, w2, Attempt :: Wait (delay * 2 ^ Z.of_nat i) :: tr))
  /\ backoffs 1000 0 2 = [1000; 2000]
  /\ (forall w : World, sent w = [] ->
        let '(r, w', tr) := getApartments busy_twice w in
        r = Returned (VArr [VObj [("id", VNum 1)]])
        /\ tr = [Attempt; Wait 1000; Attempt; Wait 2000; Attempt]
        /\ attempts tr = 3%nat
        /\ length (sent w') = 3%nat).
Proof.
  split; [ | split].
  - intros A fn retries delay i w w1 error Hi Hfn Hrl.
    replace (retries - i)%nat with (S (retries - S i)) by lia.
    apply retry_loop_backoff with (error := error); [assumption | assumption | lia].
  - reflexivity.
  - intros [env store path hrefs requests] Hs. cbn in Hs. subst requests.
    vm_compute. repeat split.
Qed.

Lemma rate_limit_backoff_witness :
  (let '(r, w', tr) := getApartments busy_twice dashboard in
   r = Returned (VArr [VObj [("id", VNum 1)]])
   /\ tr = [Attempt; Wait 1000; Attempt; Wait 2000; Attempt]
   /\ attempts tr = 3%nat
   /\ length (sent w') = 3%nat)
  /\ snd (retry_loop (api_get busy_twice "/apartments") 3 1000 (3 - 1) 1
            (snd (api_get busy_twice "/apartments" dashboard)))
     = [Attempt; Wait 2000; Attempt].
Proof.
  destruct rate_limit_backoff as (Hstep & _ & Hscenario).
  split.
  - apply (Hscenario dashboard). reflexivity.
  - etransitivity.
    + apply (f_equal snd).
      eapply (Hstep _ (api_get busy_twice "/apartments") 3%nat 1000 1%nat).
      * lia.
      * reflexivity.
      * reflexivity.
    + reflexivity.
Defined.

Lemma always_fails_limited (payload : value) (m : Method) (path : string)
    (d : option value) (w : World) :
  exists error w1,
    api_request (always_fails 429 payload) m path d w = (Thrown error, w1)
    /\ rate_limited error = true.
Proof.
  unfold api_request, adapter, always_fails. cbn.
  eexists. eexists. split; reflexivity.
Qed.

(** C6.  When every call fails with status 429, [retryRequest] never
    calls more than [retries] times; from one iteration on it calls
    exactly [retries] times, waits [delay * 2^i] after each call but the
    last, and throws the error of the last call: it does not return
    [undefined]. *)
Theorem rate_limit_exhaustion (A : Type) (fn : async A EnhancedError)
    (retries : nat) (delay : Z) (w : World) :
  (forall w0, exists error w1,
      fn w0 = (Thrown error, w1) /\ rate_limited error = true) ->
  let '(r, w', tr) := retryRequest fn retries delay w in
  (attempts tr <= retries)%nat
  /\ ((1 <= retries)%nat ->
      attempts tr = retries
      /\ waits tr = backoffs delay 0 (retries - 1)
      /\ exists error w_last,
          fn w_last = (Thrown error, w') /\ r = Thrown error).
Proof.
  intros Hall. unfold retryRequest.
  pose proof (retry_loop_attempts fn retries delay retries 0 w) as Hbound.
  destruct retries as [ | left].
  - cbn in *. split; [lia | intros Hc; lia].
  - destruct (retry_loop_exhausted fn (S left) delay Hall left 0 w)
      as (error & w_last & w' & tr & Hloop & Hlast & Hat & Hwt); [lia | ].
    rewrite Hloop in *. cbn [snd] in Hbound.
    split; [exact Hbound | ].
    intros _. split; [exact Hat | ].
    split; [rewrite Hwt; f_equal; lia | ].
    exists error, w_last. split; [exact Hlast | reflexivity].
Qed.

(** [GET /apartments] against a server that always answers 429, with the
    defaults: three calls, waits of 1000 and 2000, then the error. *)
Lemma rate_limit_exhaustion_witness :
  let '(r, w', tr) :=
    retryRequest (api_get (always_fails 429 VUndefined) "/apartments") 3 1000 dashboard in
  attempts tr = 3%nat
  /\ waits tr = [1000; 2000]
  /\ exists error, r = Thrown error.
Proof.
  pose proof (rate_limit_exhaustion _
                (api_get (always_fails 429 VUndefined) "/apartments") 3 1000 dashboard
                (always_fails_limited VUndefined GET "/apartments" None)) as H.
  destruct (retryRequest _ 3 1000 dashboard) as [[r w'] tr].
  destruct H as [_ H].
  destruct (H ltac:(lia)) as (Ha & Hw & error & w_last & Hfn & Hr).
  split; [exact Ha | split; [exact Hw | ]].
  exists error. exact Hr.
Defined.

(** With no iteration the loop is skipped: no call, [undefined]. *)
Lemma retryRequest_no_iteration (A : Type) (fn : async A EnhancedError)
    (delay : Z) (w : World) :
  retryRequest fn 0 delay w = (Returned None, w, []).
Proof. reflexivity. Qed.

(** ** Requests through the instance *)

Section PipelineFacts.
Variable server : nat -> Config -> Outcome.





End PipelineFacts.

(** ** Resource operations *)

Lemma request_interceptor_target (config : Config) (w : World) :
  method (request_interceptor config w) = method config
  /\ url (request_interceptor config w) = url config
  /\ data (request_interceptor config w) = data config.
Proof.
  destruct (request_interceptor_cases config w)
    as [(token & _ & _ & ->) | (_ & ->)]; repeat split.
Qed.


Lemma rethrown_rejection (raw : AxiosError) (w : World) :
  rethrown (CaughtRejection (fst (response_rejected raw w))) = surfaced raw.
Proof.
  unfold rethrown, surfaced.
  destruct (response_rejected_fields raw w) as (-> & _). reflexivity.
Qed.









(** C8, as amended.  [deleteApartment(5)] against a server that answers
    404 with [{error: "not found"}] sends one [DELETE /apartments/5], does
    not retry, and throws the payload [{error: "not found"}] itself.  The
    rejection built inside carries the message [msg_404] and the 404
    response with that payload; it stops at the [catch] clause. *)
Theorem delete_not_found (w : World) :
  let payload := VObj [("error", VStr "not found")] in
  let server := always_fails 404 payload in
  let x := deleteApartment server (VNum 5) w in
  outcome x = Thrown payload
  /\ trace x = [Attempt]
  /\ (exists config,
        sent (world_after x) = (sent w ++ [config])%list
        /\ method config = DELETE /\ url config = "/apartments/5")
  /\ (exists enhanced w1,
        api_delete server "/apartments/5" w = (Thrown enhanced, w1)
        /\ userMessage enhanced = VStr msg_404
        /\ e_response enhanced = Some {| status := 404; body := payload |}
        /\ originalError enhanced = http_error 404 payload).
Proof.
  cbv zeta.
  destruct (request_interceptor_target (api_config DELETE "/apartments/5" None w) w)
    as (Hm & Hu & _).
  repeat split.
  - exists (request_interceptor (api_config DELETE "/apartments/5" None w) w).
    repeat split; assumption.
  - eexists. eexists. repeat split.
Qed.

(** C8, as stated, fails: what [deleteApartment(5)] throws there is the
    payload, and the payload has no [userMessage]. *)
Lemma delete_not_found_counterexample :
  exists v,
    outcome (deleteApartment (always_fails 404 (VObj [("error", VStr "not found")]))
               (VNum 5) dashboard)
    = Thrown v
    /\ get_prop v "userMessage" = VUndefined
    /\ get_prop v "userMessage" <> VStr msg_404.
Proof.
  exists (VObj [("error", VStr "not found")]).
  split; [reflexivity | split; [reflexivity | discriminate]].
Qed.



(** * Further properties *)

(** ** The loop of [retryRequest], for any operation *)

Lemma schedule_step (delay : Z) (i n : nat) :
  schedule delay i (S (S n))
  = Attempt :: Wait (delay * 2 ^ Z.of_nat i) :: schedule delay (S i) (S n).
Proof. reflexivity. Qed.


Lemma schedule_waits (delay : Z) (i n : nat) :
  waits (schedule delay i n) = backoffs delay i (n - 1).
Proof.
  revert i. induction n as [ | n IH]; intros i; [reflexivity | ].
  destruct n as [ | n]; [reflexivity | ].
  rewrite schedule_step. cbn [waits]. rewrite IH.
  replace (S n - 1)%nat with n by lia.
  replace (S (S n) - 1)%nat with (S n) by lia.
  reflexivity.
Qed.

Lemma backoffs_sum (delay : Z) (i n : nat) :
  fold_right Z.add 0 (backoffs delay i n)
  = delay * 2 ^ Z.of_nat i * (2 ^ Z.of_nat n - 1).
Proof.
  unfold backoffs. revert i. induction n as [ | n IH]; intros i.
  - cbn. lia.
  - cbn [seq map fold_right]. rewrite IH.
    rewrite !Nat2Z.inj_succ, !Z.pow_succ_r by lia. ring.
Qed.

Section RetrySchedule.
Context {A : Type}.
Variable fn : async A EnhancedError.
Variable retries : nat.
Variable delay : Z.

Lemma retry_loop_schedule (left i : nat) (w : World) :
  (left + i = retries)%nat ->
  let tr := snd (retry_loop fn retries delay left i w) in
  tr = schedule delay i (attempts tr) /\ (left = 0%nat <-> attempts tr = 0%nat).
Proof.
  revert i w. induction left as [ | left IH]; intros i w Hsum; cbv zeta.
  - cbn. split; [reflexivity | tauto].
  - rewrite retry_loop_unfold.
    destruct (fn w) as [[a | error] w1]; [cbn; split; [reflexivity | lia] | ].
    destruct (rate_limited error) eqn:Hrl; [ | cbn; split; [reflexivity | lia]].
    destruct (Z.ltb_spec (Z.of_nat i) (Z.of_nat retries - 1)) as [Hlt | Hge];
      [ | cbn; split; [reflexivity | lia]].
    cbn [andb].
    destruct (IH (S i) w1 ltac:(lia)) as [Hs Hz].
    destruct (retry_loop fn retries delay left (S i) w1) as [[r w2] tr].
    cbn [snd] in *. cbn [attempts].
    destruct (attempts tr) as [ | n] eqn:Hn; [lia | ].
    split; [ | lia].
    rewrite schedule_step, <- Hs. reflexivity.
Qed.

Lemma retry_loop_last_call (left i : nat) (w : World) :
  (S left + i = retries)%nat ->
  let x := retry_loop fn retries delay (S left) i w in
  exists w_last c,
    fn w_last = (c, world_after x)
    /\ outcome x = match c with
                   | Returned a => Returned (Some a)
                   | Thrown error => Thrown error
                   end.
Proof.
  revert i w. induction left as [ | left IH]; intros i w Hsum; cbv zeta.
  all: rewrite retry_loop_unfold.
  all: destruct (fn w) as [[a | error] w1] eqn:Hfn;
    [exists w, (Returned a); split; [exact Hfn | reflexivity] | ].
  all: destruct (rate_limited error);
    [ | exists w, (Thrown error); split; [exact Hfn | reflexivity]].
  all: destruct (Z.ltb_spec (Z.of_nat i) (Z.of_nat retries - 1)) as [Hlt | Hge];
    [ | exists w, (Thrown error); split; [exact Hfn | reflexivity]].
  - lia.
  - cbn [andb].
    destruct (IH (S i) w1 ltac:(lia)) as (w_last & c & Hlast & Hout).
    destruct (retry_loop fn retries delay (S left) (S i) w1) as [[r w2] tr].
    exists w_last, c. split; [exact Hlast | exact Hout].
Qed.

End RetrySchedule.

(** X1.  Whatever the operation does, [retryRequest] alternates calls and
    waits: the trace is a call, then for each further call a wait of
    [delay * 2^i] (i = 0, 1, ...) followed by the call.  It never ends on
    a wait, never calls more than [retries] times, and makes no call only
    when [retries] is 0. *)
Theorem retry_trace_shape (A : Type) (fn : async A EnhancedError)
    (retries : nat) (delay : Z) (w : World) :
  let tr := trace (retryRequest fn retries delay w) in
  tr = schedule delay 0 (attempts tr)
  /\ waits tr = backoffs delay 0 (attempts tr - 1)
  /\ (attempts tr <= retries)%nat
  /\ (attempts tr = 0%nat <-> retries = 0%nat).
Proof.
  cbv zeta. unfold trace, retryRequest.
  destruct (retry_loop_schedule fn retries delay retries 0 w ltac:(lia)) as [Hs Hz].
  pose proof (retry_loop_attempts fn retries delay retries 0 w) as Hle.
  split; [exact Hs | ].
  split; [rewrite Hs at 1; apply schedule_waits | ].
  split; [exact Hle | ].
  split; intros H; apply Hz; exact H.
Qed.

(** X2.  The time [retryRequest] spends waiting is
    [delay * (2^(calls - 1) - 1)]; for a delay that is not negative it is
    at most [delay * (2^(retries - 1) - 1)], so at most 3000 with the
    defaults, whatever the operation does. *)
Theorem retry_total_wait (A : Type) (fn : async A EnhancedError)
    (retries : nat) (delay : Z) (w : World) :
  let tr := trace (retryRequest fn retries delay w) in
  total_wait tr = delay * (2 ^ Z.of_nat (attempts tr - 1) - 1)
  /\ (0 <= delay ->
      total_wait tr <= delay * (2 ^ Z.of_nat (retries - 1) - 1))
  /\ (retries = 3%nat -> delay = 1000 -> total_wait tr <= 3000).
Proof.
  cbv zeta. unfold trace, retryRequest, total_wait.
  destruct (retry_loop_schedule fn retries delay retries 0 w ltac:(lia)) as [Hs _].
  pose proof (retry_loop_attempts fn retries delay retries 0 w) as Hle.
  set (tr := snd (retry_loop fn retries delay retries 0 w)) in *.
  assert (Hsum : fold_right Z.add 0 (waits tr)
                 = delay * (2 ^ Z.of_nat (attempts tr - 1) - 1)).
  { rewrite Hs at 1. rewrite schedule_waits, backoffs_sum.
    change (2 ^ Z.of_nat 0) with 1. ring. }
  assert (Hbound : 0 <= delay ->
            fold_right Z.add 0 (waits tr)
            <= delay * (2 ^ Z.of_nat (retries - 1) - 1)).
  { intros Hd. rewrite Hsum.
    apply Z.mul_le_mono_nonneg_l; [exact Hd | ].
    apply Z.sub_le_mono_r. apply Z.pow_le_mono_r; lia. }
  split; [exact Hsum | split; [exact Hbound | ]].
  intros Hr Hdelay. subst retries delay.
  etransitivity; [apply Hbound; lia | ]. cbn. lia.
Qed.

(** [GET /apartments] against a server that always answers 429 waits
    3000 in all. *)
Lemma retry_total_wait_witness :
  total_wait
    (trace (retryRequest (api_get (always_fails 429 VUndefined) "/apartments")
              3 1000 dashboard))
  <= 1000 * (2 ^ Z.of_nat (3 - 1) - 1)
  /\ total_wait
       (trace (retryRequest (api_get (always_fails 429 VUndefined) "/apartments")
                 3 1000 dashboard))
     <= 3000.
Proof.
  destruct (retry_total_wait _ (api_get (always_fails 429 VUndefined) "/apartments")
              3 1000 dashboard) as (_ & Hbound & Hdefault).
  split.
  - apply Hbound. lia.
  - apply Hdefault; reflexivity.
Defined.

(** X3.  With at least one iteration, what [retryRequest] yields is what
    the last call of the operation yielded, value or error, and the world
    is as that call left it; in particular the result is never
    [undefined]. *)
Theorem retry_result_is_last_call (A : Type) (fn : async A EnhancedError)
    (retries : nat) (delay : Z) (w : World) :
  (1 <= retries)%nat ->
  let x := retryRequest fn retries delay w in
  (exists w_last c,
      fn w_last = (c, world_after x)
      /\ outcome x = match c with
                     | Returned a => Returned (Some a)
                     | Thrown error => Thrown error
                     end)
  /\ outcome x <> Returned None.
Proof.
  intros Hr. cbv zeta. unfold retryRequest.
  destruct retries as [ | left]; [lia | ].
  destruct (retry_loop_last_call fn (S left) delay left 0 w ltac:(lia))
    as (w_last & c & Hlast & Hout).
  split.
  - exists w_last, c. split; assumption.
  - rewrite Hout. destruct c; discriminate.
Qed.

(** The third call of [GET /apartments] succeeds: its response is the
    result. *)
Lemma retry_result_is_last_call_witness :
  outcome (retryRequest (api_get busy_twice "/apartments") 3 1000 dashboard)
  <> Returned None.
Proof.
  apply (retry_result_is_last_call _ (api_get busy_twice "/apartments")
           3 1000 dashboard).
  lia.
Defined.

(** ** The interceptors *)

(** X4.  The request interceptor changes nothing but the
    [Authorization] header: method, url, body, base URL, timeout and every
    other header stay, and running it twice is running it once. *)
Theorem interceptor_touches_only_authorization (config : Config) (w : World) :
  let config' := request_interceptor config w in
  method config' = method config
  /\ url config' = url config
  /\ data config' = data config
  /\ baseURL config' = baseURL config
  /\ timeout config' = timeout config
  /\ (forall k, k <> "Authorization" -> headers config' !! k = headers config !! k)
  /\ request_interceptor config' w = config'.
Proof.
  cbv zeta.
  destruct (request_interceptor_cases config w)
    as [(token & Ht & Hne & Heq) | (Hnone & Heq)].
  - assert (Hagain : request_interceptor
                       (set_header "Authorization" ("Bearer " +:+ token) config) w
                     = set_header "Authorization" ("Bearer " +:+ token) config).
    { unfold request_interceptor. rewrite Ht.
      destruct (String.eqb_spec token "") as [E | _]; [contradiction | ].
      unfold set_header. cbn. f_equal. apply insert_insert_eq. }
    rewrite Heq. repeat split; try exact Hagain.
    intros k Hk. cbn. apply lookup_insert_ne. congruence.
  - rewrite Heq. repeat split. exact Heq.
Qed.

Lemma interceptor_touches_only_authorization_witness :
  headers (request_interceptor (api_config POST "/users" (Some VNull) dashboard)
             dashboard) !! "Content-Type"
  = headers (api_config POST "/users" (Some VNull) dashboard) !! "Content-Type".
Proof.
  apply (interceptor_touches_only_authorization
           (api_config POST "/users" (Some VNull) dashboard) dashboard).
  discriminate.
Defined.

Lemma classify_other (error : AxiosError) (w : World) :
  ~ unauthorized error -> snd (classify error w) = w.
Proof.
  intros Hnot. unfold classify.
  destruct (response error) as [r | ] eqn:Hr.
  - by_status (status r); cbn [snd]; try reflexivity.
    exfalso. apply Hnot. exists r. split; assumption.
  - destruct (request error); [ | reflexivity].
    destruct (code error) as [c | ]; [ | reflexivity].
    destruct (String.eqb c "ECONNABORTED"); reflexivity.
Qed.

Lemma classify_unauthorized (error : AxiosError) (w : World) :
  unauthorized error -> snd (classify error w) = on_unauthorized w.
Proof.
  intros (r & Hr & Hst). unfold classify. rewrite Hr, Hst. reflexivity.
Qed.

(** X5.  A failure that is not a 401 has no side effect: the rejection
    handler leaves the store, the location and the request log as they
    were. *)
Theorem rejection_keeps_world (error : AxiosError) (w : World) :
  ~ unauthorized error -> snd (response_rejected error w) = w.
Proof.
  intros Hnot. rewrite response_rejected_world. apply classify_other. exact Hnot.
Qed.

Lemma rejection_keeps_world_witness :
  snd (response_rejected (http_error 403 VNull) dashboard) = dashboard
  /\ snd (response_rejected timeout_error login_page) = login_page.
Proof.
  split.
  - apply rejection_keeps_world. intros (r & Hr & Hst).
    injection Hr as <-. discriminate Hst.
  - apply rejection_keeps_world. intros (r & Hr & _). discriminate Hr.
Defined.

(** X6.  A 401 removes [token] and [user] and nothing else: every other
    key of the store keeps its value, and the pathname, the environment
    and the request log stay. *)
Theorem unauthorized_keeps_other_keys (error : AxiosError) (w : World) :
  unauthorized error ->
  let w' := snd (response_rejected error w) in
  (forall k, k <> "token" -> k <> "user" -> getItem k w' = getItem k w)
  /\ pathname w' = pathname w
  /\ REACT_APP_API_URL w' = REACT_APP_API_URL w
  /\ sent w' = sent w.
Proof.
  intros Hu. cbv zeta.
  rewrite response_rejected_world, (classify_unauthorized _ _ Hu).
  unfold on_unauthorized, getItem. cbn.
  destruct (negb _); cbn; repeat split.
  all: intros k Hk1 Hk2; rewrite !lookup_delete_ne by congruence; reflexivity.
Qed.

Lemma unauthorized_keeps_other_keys_witness :
  getItem "theme"
    (snd (response_rejected (http_error 401 VNull)
            {| REACT_APP_API_URL := None;
               localStorage := {[ "token" := "abc123"; "theme" := "dark" ]};
               pathname := "/dashboard";
               href_assigned := [];
               sent := [] |}))
  = Some "dark".
Proof.
  etransitivity.
  - apply (unauthorized_keeps_other_keys (http_error 401 VNull)).
    + exists {| status := 401; body := VNull |}. split; reflexivity.
    + discriminate.
    + discriminate.
  - reflexivity.
Defined.

(** ** Runs of one operation *)

Lemma sent_more_more (a b : list Config) (w : World) :
  sent_more b (sent_more a w) = sent_more (a ++ b) w.
Proof. unfold sent_more. cbn. f_equal. symmetry. apply app_assoc. Qed.

Lemma outgoing_sent_more (m : Method) (path : string) (d : option value)
    (extra : list Config) (w : World) :
  outgoing m path d (sent_more extra w) = outgoing m path d w.
Proof. reflexivity. Qed.

Lemma rate_limit_answer_not_unauthorized (raw : AxiosError) :
  rate_limit_answer (Rejected raw) -> ~ unauthorized raw.
Proof.
  intros (raw' & res & Heq & Hres & Hst) (r & Hr & Hst').
  injection Heq as <-. rewrite Hres in Hr. injection Hr as <-. lia.
Qed.

Lemma rate_limit_answer_iff (raw : AxiosError) (w : World) :
  rate_limited (fst (response_rejected raw w)) = true
  <-> rate_limit_answer (Rejected raw).
Proof.
  rewrite rate_limited_enhanced. split.
  - destruct (response raw) as [res | ] eqn:Hres; [ | discriminate].
    intros Hst. exists raw, res.
    split; [reflexivity | split; [exact Hres | apply Z.eqb_eq; exact Hst]].
  - intros (raw' & res & Heq & Hres & Hst). injection Heq as <-.
    rewrite Hres. apply Z.eqb_eq. exact Hst.
Qed.

Section RunFacts.
Variable server : nat -> Config -> Outcome.

Lemma api_request_unfold (m : Method) (path : string) (d : option value) (w : World) :
  api_request server m path d w
  = match server (length (sent w)) (outgoing m path d w) with
    | Resolved res => (Returned res, sent_more [outgoing m path d w] w)
    | Rejected raw =>
        (Thrown (fst (response_rejected raw (sent_more [outgoing m path d w] w))),
         snd (classify raw (sent_more [outgoing m path d w] w)))
    end.
Proof.
  unfold api_request, adapter, outgoing.
  destruct (server _ _) as [res | raw]; [reflexivity | ].
  change (record_sent (request_interceptor (api_config m path d w) w) w)
    with (sent_more [request_interceptor (api_config m path d w) w] w).
  unfold response_rejected.
  destruct (classify raw _) as [msg w2]. reflexivity.
Qed.

(** How the loop runs against the server: [n] answers with status 429,
    each followed by the same request again, then the answer that ends
    it. *)
Lemma retry_api_run (m : Method) (path : string) (d : option value)
    (retries : nat) (delay : Z) (left i : nat) (w : World) :
  (S left + i = retries)%nat ->
  let x := retry_loop (api_request server m path d) retries delay (S left) i w in
  let config := outgoing m path d w in
  exists n,
    (n <= left)%nat
    /\ attempts (trace x) = S n
    /\ (forall k, (k < n)%nat ->
          rate_limit_answer (server (length (sent w) + k)%nat config))
    /\ match server (length (sent w) + n)%nat config with
       | Resolved res =>
           outcome x = Returned (Some res)
           /\ world_after x = sent_more (replicate (S n) config) w
       | Rejected raw =>
           outcome x
           = Thrown (fst (response_rejected raw
                            (sent_more (replicate (S n) config) w)))
           /\ world_after x
              = snd (classify raw (sent_more (replicate (S n) config) w))
           /\ (rate_limit_answer (Rejected raw) -> n = left)
       end.
Proof.
  revert i w. induction left as [ | left IH]; intros i w Hsum; cbv zeta.
  all: rewrite retry_loop_unfold, api_request_unfold.
  all: destruct (server (length (sent w)) (outgoing m path d w))
         as [res | raw] eqn:Hserver.
  all: try (exists 0%nat; rewrite Nat.add_0_r, Hserver;
            split; [lia | split; [reflexivity | split; [intros k Hk; lia | ]]];
            split; reflexivity).
  - (* the only iteration fails *)
    replace (Z.of_nat i <? Z.of_nat retries - 1) with false
      by (symmetry; apply Z.ltb_ge; lia).
    rewrite andb_false_r.
    exists 0%nat. rewrite Nat.add_0_r, Hserver.
    split; [lia | split; [reflexivity | split; [intros k Hk; lia | ]]].
    split; [reflexivity | split; [reflexivity | reflexivity]].
  - (* a failure with iterations to go *)
    destruct (rate_limited _) eqn:Hrl.
    + replace (Z.of_nat i <? Z.of_nat retries - 1) with true
        by (symmetry; apply Z.ltb_lt; lia).
      cbn [andb].
      apply rate_limit_answer_iff in Hrl.
      rewrite (classify_other raw _ (rate_limit_answer_not_unauthorized raw Hrl)).
      specialize (IH (S i) (sent_more [outgoing m path d w] w) ltac:(lia)).
      cbv zeta in IH. rewrite outgoing_sent_more in IH.
      destruct (retry_loop _ retries delay (S left) (S i) _) as [[r w2] tr].
      unfold world_after, outcome, trace in *. cbn [fst snd] in *.
      destruct IH as (n & Hn & Hat & Hbefore & Hend).
      exists (S n).
      split; [lia | ].
      split; [cbn [attempts]; rewrite Hat; reflexivity | ].
      split.
      * intros k Hk. destruct k as [ | k].
        -- rewrite Nat.add_0_r, Hserver. exact Hrl.
        -- specialize (Hbefore k ltac:(lia)).
           cbn [sent sent_more] in Hbefore. rewrite length_app in Hbefore.
           cbn [length] in Hbefore.
           replace (length (sent w) + S k)%nat with (length (sent w) + 1 + k)%nat
             by lia.
           exact Hbefore.
      * cbn [sent sent_more] in Hend. rewrite length_app in Hend.
        cbn [length] in Hend.
        replace (length (sent w) + S n)%nat with (length (sent w) + 1 + n)%nat
          by lia.
        rewrite sent_more_more in Hend.
        change ([outgoing m path d w] ++ replicate (S n) (outgoing m path d w))%list
          with (replicate (S (S n)) (outgoing m path d w)) in Hend.
        destruct (server (length (sent w) + 1 + n)%nat (outgoing m path d w)).
        -- exact Hend.
        -- destruct Hend as (Ho & Hw & Hex).
           split; [exact Ho | split; [exact Hw | ]].
           intros Hra. rewrite (Hex Hra). reflexivity.
    + cbn [andb].
      exists 0%nat. rewrite Nat.add_0_r, Hserver.
      split; [lia | split; [reflexivity | split; [intros k Hk; lia | ]]].
      split; [reflexivity | split; [reflexivity | ]].
      intros Hra. apply rate_limit_answer_iff with (w := sent_more [outgoing m path d w] w) in Hra.
      congruence.
Qed.

End RunFacts.

Lemma perform_request (op : operation) :
  exists m path d,
    (m = DELETE <-> is_delete op = true)
    /\ (is_delete op = true -> d = None)
    /\ forall server w,
        perform server op w
        = if is_login op
          then (direct (api_request server m path d) (reader op) w, [])
          else retried (api_request server m path d) (reader op) w.
Proof.
  destruct op; eexists; eexists; eexists; (split; [ | split]).
  all: try (intros server w; reflexivity).
  all: try (split; intros H; first [discriminate H | reflexivity]).
  all: intros H; first [discriminate H | reflexivity].
Qed.

(** An operation as a run against the server. *)
Lemma perform_run (server : nat -> Config -> Outcome) (op : operation) (w : World) :
  let x := perform server op w in
  exists m path d n,
    let config := outgoing m path d w in
    (m = DELETE <-> is_delete op = true)
    /\ (is_delete op = true -> d = None)
    /\ (n <= 2)%nat
    /\ (is_login op = true -> n = 0%nat)
    /\ (is_login op = false -> trace x = schedule 1000 0 (S n))
    /\ (forall k, (k < n)%nat ->
          rate_limit_answer (server (length (sent w) + k)%nat config))
    /\ match server (length (sent w) + n)%nat config with
       | Resolved res =>
           outcome x = finish (reader op) (Some res)
           /\ world_after x = sent_more (replicate (S n) config) w
       | Rejected raw =>
           outcome x = Thrown (surfaced raw)
           /\ world_after x
              = snd (classify raw (sent_more (replicate (S n) config) w))
           /\ (rate_limit_answer (Rejected raw) -> is_login op = false -> n = 2%nat)
       end.
Proof.
  cbv zeta.
  destruct (perform_request op) as (m & path & d & Hdel & Hnone & Hperform).
  exists m, path, d. rewrite Hperform.
  destruct (is_login op) eqn:Hl.
  - exists 0%nat. unfold direct. rewrite api_request_unfold, Nat.add_0_r.
    split; [exact Hdel | split; [exact Hnone | ]].
    split; [lia | split; [reflexivity | split; [discriminate | ]]].
    split; [intros k Hk; lia | ].
    destruct (server (length (sent w)) (outgoing m path d w)) as [res | raw].
    + split; reflexivity.
    + unfold outcome, world_after. cbn [fst snd].
      rewrite rethrown_rejection.
      split; [reflexivity | split; [reflexivity | discriminate]].
  - unfold retried, retryRequest.
    destruct (retry_api_run server m path d 3 1000 2 0 w eq_refl)
      as (n & Hn & Hat & Hbefore & Hend).
    destruct (retry_loop_schedule (api_request server m path d) 3 1000 3 0 w eq_refl)
      as [Hs _].
    destruct (retry_loop _ 3 1000 3 0 w) as [[r w1] tr].
    unfold world_after, outcome, trace in *. cbn [fst snd] in *.
    exists n.
    split; [exact Hdel | split; [exact Hnone | ]].
    split; [exact Hn | split; [discriminate | ]].
    split.
    { intros _. rewrite <- Hat. destruct r; exact Hs. }
    split; [exact Hbefore | ].
    destruct (server (length (sent w) + n)%nat (outgoing m path d w)) as [res | raw].
    + destruct Hend as [-> ->]. split; reflexivity.
    + destruct Hend as (-> & -> & Hex). cbn [fst snd].
      rewrite rethrown_rejection.
      split; [reflexivity | split; [reflexivity | ]].
      intros Hra _. apply Hex. exact Hra.
Qed.


Lemma classify_frame (error : AxiosError) (w : World) :
  pathname (snd (classify error w)) = pathname w
  /\ REACT_APP_API_URL (snd (classify error w)) = REACT_APP_API_URL w.
Proof.
  unfold classify.
  destruct (response error) as [r | ].
  - by_status (status r); cbn [snd]; try (split; reflexivity).
    unfold on_unauthorized. cbn. destruct (negb _); split; reflexivity.
  - destruct (request error); [ | split; reflexivity].
    destruct (code error) as [c | ]; [ | split; reflexivity].
    destruct (String.eqb c "ECONNABORTED"); split; reflexivity.
Qed.







(** X10.  An operation never changes the pathname or the environment;
    against a server that never answers 401 it leaves the store and the
    location alone as well, whatever else happens: success, failure,
    retries. *)
Theorem session_untouched_without_401 (server : nat -> Config -> Outcome)
    (op : operation) (w : World) :
  let w' := world_after (perform server op w) in
  pathname w' = pathname w
  /\ REACT_APP_API_URL w' = REACT_APP_API_URL w
  /\ ((forall k config raw, server k config = Rejected raw -> ~ unauthorized raw) ->
      localStorage w' = localStorage w
      /\ href_assigned w' = href_assigned w).
Proof.
  cbv zeta.
  destruct (perform_run server op w)
    as (m & path & d & n & _ & _ & _ & _ & _ & _ & Hend).
  destruct (server (length (sent w) + n)%nat (outgoing m path d w))
    as [res | raw] eqn:Hserver.
  - destruct Hend as [_ ->]. repeat split.
  - destruct Hend as (_ & -> & _).
    destruct (classify_frame raw (sent_more (replicate (S n) (outgoing m path d w)) w))
      as [Hp He].
    split; [exact Hp | split; [exact He | ]].
    intros Hnever.
    rewrite (classify_other raw _ (Hnever _ _ _ Hserver)). split; reflexivity.
Qed.

Lemma session_untouched_without_401_witness :
  localStorage (world_after (perform (always_fails 429 VNull) GetEvents dashboard))
  = localStorage dashboard.
Proof.
  apply (session_untouched_without_401 (always_fails 429 VNull) GetEvents dashboard).
  intros k config raw Heq (r & Hr & Hst).
  injection Heq as <-. injection Hr as <-. discriminate Hst.
Defined.








Lemma classify_store (error : AxiosError) (w : World) :
  (localStorage (snd (classify error w)) = localStorage w
   /\ href_assigned (snd (classify error w)) = href_assigned w)
  \/ (localStorage (snd (classify error w))
      = delete "user" (delete "token" (localStorage w))
      /\ (href_assigned (snd (classify error w)) = href_assigned w
          \/ href_assigned (snd (classify error w))
             = (href_assigned w ++ ["/login"])%list)).
Proof.
  unfold classify.
  destruct (response error) as [r | ].
  - by_status (status r); cbn [snd]; try (left; split; reflexivity).
    right. unfold on_unauthorized. cbn.
    destruct (negb _); cbn; split; try reflexivity; [right | left]; reflexivity.
  - destruct (request error); [ | left; split; reflexivity].
    destruct (code error) as [c | ]; [ | left; split; reflexivity].
    destruct (String.eqb c "ECONNABORTED"); left; split; reflexivity.
Qed.

(** X14.  No operation writes to the store or navigates anywhere but to
    the login path: after a call the store is what it was, or what it was
    without [token] and [user]; the location has been assigned nothing,
    or the login path once. *)
Theorem store_never_written (server : nat -> Config -> Outcome) (op : operation)
    (w : World) :
  let w' := world_after (perform server op w) in
  (localStorage w' = localStorage w
   \/ localStorage w' = delete "user" (delete "token" (localStorage w)))
  /\ (href_assigned w' = href_assigned w
      \/ href_assigned w' = (href_assigned w ++ ["/login"])%list)
  /\ (forall k v, getItem k w' = Some v -> getItem k w = Some v).
Proof.
  cbv zeta.
  destruct (perform_run server op w)
    as (m & path & d & n & _ & _ & _ & _ & _ & _ & Hend).
  assert (Hcases :
    (localStorage (world_after (perform server op w)) = localStorage w
     /\ href_assigned (world_after (perform server op w)) = href_assigned w)
    \/ (localStorage (world_after (perform server op w))
        = delete "user" (delete "token" (localStorage w))
        /\ (href_assigned (world_after (perform server op w)) = href_assigned w
            \/ href_assigned (world_after (perform server op w))
               = (href_assigned w ++ ["/login"])%list))).
  { destruct (server (length (sent w) + n)%nat (outgoing m path d w)) as [res | raw].
    - destruct Hend as [_ ->]. left. split; reflexivity.
    - destruct Hend as (_ & -> & _).
      apply (classify_store raw
               (sent_more (replicate (S n) (outgoing m path d w)) w)). }
  destruct Hcases as [[Hs Hh] | [Hs Hh]].
  - split; [left; exact Hs | split; [left; exact Hh | ]].
    intros k v. unfold getItem. rewrite Hs. tauto.
  - split; [right; exact Hs | split; [exact Hh | ]].
    intros k v. unfold getItem. rewrite Hs. intros Hk.
    apply lookup_delete_Some in Hk as [_ Hk].
    apply lookup_delete_Some in Hk as [_ Hk]. exact Hk.
Qed.

(** A successful [login] leaves the stored token as it was: storing the
    new one is left to the caller. *)
Lemma store_never_written_witness :
  getItem "token"
    (world_after (perform (answers (VObj [("data", VObj [("token", VStr "fresh")])]))
                    (Login (VStr "ana@example.com") (VStr "secret")) login_page))
  = Some "abc123"
  /\ getItem "token" login_page = Some "abc123".
Proof.
  split; [reflexivity | ].
  apply (store_never_written (answers (VObj [("data", VObj [("token", VStr "fresh")])]))
           (Login (VStr "ana@example.com") (VStr "secret")) login_page).
  reflexivity.
Defined.

(** ** Failures other than a 429 *)


